(** * unpacker.py: splitting and joining a firmware image

    A shallow embedding of [unpacker.py] and the properties of its two
    subcommands.

    The script is straight-line module code: a partition table
    ([firmware_parts]) and an [if]/[elif] on [sys.argv[1]] whose branches loop
    over the table.  It is embedded as a computation in a small state and
    exception monad over a [world]: the files the process can reach and the
    lines written to standard output.

    Modelling conventions.
    - A file is named by the path handed to [open]; [canon] maps a path to the
      file it denotes, so that two spellings of one file ([squashfs] and
      [./squashfs], or a link) are the same key of the file map.  Any path can
      be created; directories, permissions and device errors are outside the
      model, so the only exceptions are [IndexError] (a missing [sys.argv]
      entry) and [FileNotFoundError] (opening an absent file for reading).
    - A write is visible in the file at once, and a read returns the bytes
      the file holds when it is made.  CPython buffers both: a reader may
      still serve bytes it read ahead after another handle truncated the
      file, and written bytes reach the file when the writer is flushed.  The
      two differ only when a file is read after it was read or written
      through another handle, which in this script needs [sys.argv[2]] to
      denote one of the table's own files: the source of [unpack] being the
      file of a descriptor after the first, or the image of [pack] being a
      part file read after a write to the image.  The theorems on what a
      whole run reads and writes carry the hypothesis that excludes this, or
      are about a file truncated before its first read, where nothing is
      buffered, or hold of the script either way (which files change, and
      that two runs agree); the lemmas on one turn of a loop describe the
      model.
    - Offsets and sizes of the table are non-negative literals and are kept in
      [N]; lengths computed by [len] and the padding, which may be negative,
      are in [Z]. *)

From Stdlib Require Import ZArith NArith String Lia HexadecimalString.
From stdpp Require Import gmap strings list fin_maps.

Open Scope Z_scope.

(** ** Data *)

(** [class FirmwarePart]: a name, an offset and a size. *)
Record FirmwarePart := mkFirmwarePart {
  name : string;
  offset : N;
  size : N
}.

(** The module-level table. *)
Definition firmware_parts : list FirmwarePart :=
  [ mkFirmwarePart "uimage_kernel" 0x0 0x11AA97;
    mkFirmwarePart "squashfs" 0x11AAD7 (5505028 - 0x11AAD7) ].

(** What the process can observe and change. *)
Record world := World {
  files : gmap string (list Byte.byte);
  stdout : list string
}.

(** The exceptions the script can die of. *)
Inductive exn := IndexError | FileNotFoundError.

(** How a run ends: the end of the script is reached, or an exception is left
    uncaught. *)
Inductive outcome (A : Type) :=
  | Returned (a : A)
  | Raised (e : exn).
Arguments Returned {A} a.
Arguments Raised {A} e.

(** The exit status the interpreter gives the shell: 0 at the end of the
    script, 1 (after a traceback on standard error) for an uncaught
    exception. *)
Definition exit_status {A} (o : outcome A) : Z :=
  match o with
  | Returned _ => 0
  | Raised _ => 1
  end.

(** ** The monad *)

Definition M (A : Type) : Type := world → world * outcome A.

Definition ret {A} (a : A) : M A := λ w, (w, Returned a).

(** Sequencing: an exception ends the run, and what was done before it
    stays done. *)
Definition bind {A B} (k : A → M B) (m : M A) : M B :=
  λ w, match m w with
       | (w', Returned a) => k a w'
       | (w', Raised e) => (w', Raised e)
       end.

Definition raise {A} (e : exn) : M A := λ w, (w, Raised e).

#[global] Instance M_ret : MRet M := @ret.
#[global] Instance M_bind : MBind M := @bind.

(** [for x in l: body], with the loop-carried object [s]. *)
Fixpoint for_in {A S} (l : list A) (body : A → S → M S) (s : S) : M S :=
  match l with
  | [] => ret s
  | x :: l' => s' ← body x s; for_in l' body s'
  end.

(** ** Builtins *)

(** [hex(n)] for a Python int: an optional sign, [0x], lower-case digits. *)
Definition hex (n : Z) : string :=
  (if n <? 0 then "-" else "") +:+ "0x"
  +:+ NilZero.string_of_uint (N.to_hex_uint (Z.abs_N n)).

(** [len(data)]. *)
Definition len (data : list Byte.byte) : Z := Z.of_nat (length data).

(** [b'\x00' * n]: a negative count gives the empty bytes object. *)
Definition zeros (n : Z) : list Byte.byte := replicate (Z.to_nat n) Byte.x00.

(** [l[i]] on [sys.argv]. *)
Definition getitem (l : list string) (i : nat) : M string :=
  match l !! i with
  | Some a => ret a
  | None => raise IndexError
  end.

(** [print(line)]. *)
Definition print (line : string) : M unit :=
  λ w, (World (files w) (stdout w ++ [line]), Returned tt).

Section Files.

(** The file a path denotes. *)
Variable canon : string → string.

(** A file object opened for reading: the file and the stream position. *)
Record reader := Reader { r_file : string; r_pos : N }.

(** A file object opened for writing.  It was truncated when opened and is the
    only writer of its file, so its position is the end of the file. *)
Record writer := Writer { w_file : string }.

(** [open(path, "rb")]. *)
Definition open_rb (path : string) : M reader :=
  λ w, match files w !! canon path with
       | Some _ => (w, Returned (Reader (canon path) 0))
       | None => (w, Raised FileNotFoundError)
       end.

(** [open(path, "wb")]: creates the file, or truncates it. *)
Definition open_wb (path : string) : M writer :=
  λ w, (World (<[canon path := []]> (files w)) (stdout w),
        Returned (Writer (canon path))).

(** [f.seek(pos, 0)]. *)
Definition seek (f : reader) (pos : N) : reader := Reader (r_file f) pos.

(** The bytes of [content] from position [pos] on, at most [n] of them. *)
Definition slice (content : list Byte.byte) (pos n : N) : list Byte.byte :=
  take (N.to_nat n) (drop (N.to_nat pos) content).

(** [f.read(n)]: at most [n] bytes from the position, fewer at the end of the
    file, none beyond it.  The bytes are those the file holds now: the
    read-ahead of CPython's reader is not modelled. *)
Definition read (f : reader) (n : N) : M (list Byte.byte * reader) :=
  λ w, let data := slice (default [] (files w !! r_file f)) (r_pos f) n in
       (w, Returned (data, Reader (r_file f) (r_pos f + N.of_nat (length data)))).

(** [f.read()]: everything from the position to the end of the file. *)
Definition read_all (f : reader) : M (list Byte.byte * reader) :=
  λ w, let data := drop (N.to_nat (r_pos f)) (default [] (files w !! r_file f)) in
       (w, Returned (data, Reader (r_file f) (r_pos f + N.of_nat (length data)))).

(** [f.write(data)].  The bytes are in the file at once: the buffer of
    CPython's writer is not modelled. *)
Definition write (f : writer) (data : list Byte.byte) : M unit :=
  λ w, (World (<[w_file f := default [] (files w !! w_file f) ++ data]> (files w))
              (stdout w),
        Returned tt).

(** [f.close()]: nothing is left to flush. *)
Definition close (f : writer) : M unit := ret tt.

(** ** The script *)

(** The body of the loop of the [unpack] branch. *)
Definition unpack_part (part : FirmwarePart) (f : reader) : M reader :=
  outfile ← open_wb (name part);
  let f := seek f (offset part) in
  '(data, f) ← read f (size part);
  write outfile data;;
  close outfile;;
  print ("Wrote " +:+ name part +:+ " - " +:+ hex (len data) +:+ " bytes");;
  ret f.

(** The body of the loop of the [pack] branch. *)
Definition pack_part (part : FirmwarePart) (f : writer) : M writer :=
  i ← open_rb (name part);
  '(data, i) ← read_all i;
  write f data;;
  let padding := Z.of_N (size part) - len data in
  print ("Wrote " +:+ name part +:+ " - " +:+ hex (len data) +:+ " bytes");;
  print ("Padding: " +:+ hex padding);;
  write f (zeros padding);;
  ret f.

(** The [if]/[elif] at module level, over a table [parts]. *)
Definition script (parts : list FirmwarePart) (argv : list string) : M unit :=
  a ← getitem argv 1;
  if String.eqb a "unpack" then
    path ← getitem argv 2;
    f ← open_rb path;
    for_in parts unpack_part f;;
    ret tt
  else
    a ← getitem argv 1;
    if String.eqb a "pack" then
      path ← getitem argv 2;
      f ← open_wb path;
      for_in (drop 1 parts) pack_part f;;
      ret tt
    else ret tt.

(** The program: the script over its own table. *)
Definition main (argv : list string) : M unit := script firmware_parts argv.

End Files.

(** ** Closed forms of the two loops *)

Section Runs.

Variable canon : string → string.

(** The bytes of the file a descriptor names, in a file map. *)
Definition part_bytes (fs : gmap string (list Byte.byte)) (p : FirmwarePart)
  : list Byte.byte :=
  default [] (fs !! canon (name p)).

(** What [unpack] leaves in the file map when every read sees [img]. *)
Definition unpack_files (img : list Byte.byte) (parts : list FirmwarePart)
    (fs : gmap string (list Byte.byte)) : gmap string (list Byte.byte) :=
  foldl (λ fs p, <[canon (name p) := slice img (offset p) (size p)]> fs) fs parts.

(** The line [unpack] prints for a descriptor. *)
Definition unpack_line (img : list Byte.byte) (p : FirmwarePart) : string :=
  "Wrote " +:+ name p +:+ " - " +:+ hex (len (slice img (offset p) (size p)))
  +:+ " bytes".

(** What [pack] writes for a descriptor whose part file holds [data]. *)
Definition padded (p : FirmwarePart) (data : list Byte.byte) : list Byte.byte :=
  data ++ zeros (Z.of_N (size p) - len data).

(** The image [pack] writes for the descriptors [parts]. *)
Definition pack_image (fs : gmap string (list Byte.byte))
    (parts : list FirmwarePart) : list Byte.byte :=
  flat_map (λ p, padded p (part_bytes fs p)) parts.

(** The two lines [pack] prints for a descriptor. *)
Definition pack_lines (fs : gmap string (list Byte.byte)) (p : FirmwarePart)
  : list string :=
  [ "Wrote " +:+ name p +:+ " - " +:+ hex (len (part_bytes fs p)) +:+ " bytes";
    "Padding: " +:+ hex (Z.of_N (size p) - len (part_bytes fs p)) ].

(** The files a run opens for reading, by its command line: the source image
    for [unpack], the part files of the descriptors after the first for
    [pack]. *)
Definition reads_of (parts : list FirmwarePart) (argv : list string) : list string :=
  match argv with
  | _ :: sub :: path :: _ =>
      if String.eqb sub "unpack" then [canon path]
      else if String.eqb sub "pack" then map (λ p, canon (name p)) (drop 1 parts)
      else []
  | _ => []
  end.

(** The files a run opens for writing: the part files for [unpack], the image
    for [pack]. *)
Definition writes_of (parts : list FirmwarePart) (argv : list string) : list string :=
  match argv with
  | _ :: sub :: path :: _ =>
      if String.eqb sub "unpack" then map (λ p, canon (name p)) parts
      else if String.eqb sub "pack" then [canon path]
      else []
  | _ => []
  end.

(** Two worlds with the same standard output and the same content, or
    absence, of the files that satisfy [K]. *)
Definition agree (K : string → Prop) (w1 w2 : world) : Prop :=
  stdout w1 = stdout w2 ∧ ∀ k, K k → files w1 !! k = files w2 !! k.

End Runs.

(** The two entries of the table, by name. *)
Definition kernel_part : FirmwarePart :=
  mkFirmwarePart "uimage_kernel" 0x0 0x11AA97.
Definition squashfs_part : FirmwarePart :=
  mkFirmwarePart "squashfs" 0x11AAD7 (5505028 - 0x11AAD7).

(** ** Inputs of the example runs *)

(** The table and the image of the specification's example. *)
Definition example_parts : list FirmwarePart :=
  [mkFirmwarePart "A" 0 4; mkFirmwarePart "B" 4 6].

Definition example_image : list Byte.byte :=
  [Byte.x01; Byte.x02; Byte.x03; Byte.x04; Byte.x05;
   Byte.x06; Byte.x07; Byte.x08; Byte.x09; Byte.x00].

Definition example_disk : world := World {[ "image.bin" := example_image ]} [].

(** A directory that holds a three-byte part [B], and no part [A]. *)
Definition example_parts_disk : world :=
  World {[ "B" := [Byte.x05; Byte.x06; Byte.x07] ]} [].

(** A three-byte image. *)
Definition short_image : list Byte.byte := [Byte.x01; Byte.x02; Byte.x03].

Definition short_disk : world := World {[ "firmware.bin" := short_image ]} [].

(** The example image in a directory that already holds a stale part [A]. *)
Definition stale_disk : world :=
  World (<["A" := [Byte.xff]]> {[ "image.bin" := example_image ]}) [].

(** An image of the size the table expects: the kernel's bytes, 0x40 bytes
    [gap] where the table has its gap, and the file system's bytes. *)
Definition firmware_image (gap : Byte.byte) : list Byte.byte :=
  replicate (N.to_nat 0x11AA97) Byte.x01
  ++ replicate 0x40 gap
  ++ replicate (N.to_nat (5505028 - 0x11AAD7)) Byte.x02.

Definition firmware_disk (gap : Byte.byte) : world :=
  World {[ "firmware.bin" := firmware_image gap ]} [].







(** A part file one byte longer than the [squashfs] partition. *)
Definition oversize_part : list Byte.byte :=
  replicate (N.to_nat 4347182) Byte.x01.

Definition oversize_disk : world := World {[ "squashfs" := oversize_part ]} [].

(** A source image stored under the name of the first descriptor. *)
Definition aliased_disk : world := World {[ "uimage_kernel" := short_image ]} [].

(** A directory that holds an image from an earlier run, and no part file. *)
Definition old_image_disk : world := World {[ "firmware.bin" := short_image ]} [].

(** A directory that holds a three-byte [squashfs] part. *)
Definition small_part_disk : world := World {[ "squashfs" := short_image ]} [].

(** The table of the program without its gap. *)
Definition contiguous_parts : list FirmwarePart :=
  [ mkFirmwarePart "uimage_kernel" 0x0 0x11AA97;
    mkFirmwarePart "squashfs" 0x11AA97 (5505028 - 0x11AAD7) ].

(** The table of the example, its descriptors swapped. *)
Definition swapped_parts : list FirmwarePart :=
  [mkFirmwarePart "B" 4 6; mkFirmwarePart "A" 0 4].

(** * Properties *)

Lemma firmware_parts_eq : firmware_parts = [kernel_part; squashfs_part].
Proof. reflexivity. Qed.

Lemma squashfs_size : size squashfs_part = 4347181%N.
Proof. reflexivity. Qed.

Lemma slice_nil pos n : slice [] pos n = [].
Proof. unfold slice. by rewrite drop_nil, take_nil. Qed.

(** A read at the end of the file or beyond it returns what is left. *)
Lemma slice_short content pos n :
  (length content ≤ N.to_nat pos + N.to_nat n)%nat →
  slice content pos n = drop (N.to_nat pos) content.
Proof. intros Hle. unfold slice. apply take_ge. rewrite length_drop. lia. Qed.

Lemma slice_length content pos n :
  len (slice content pos n) = Z.min (Z.of_N n) (Z.max 0 (len content - Z.of_N pos)).
Proof. unfold slice, len. rewrite length_take, length_drop. lia. Qed.

Lemma kernel_size : size kernel_part = 1157783%N.
Proof. reflexivity. Qed.

Lemma squashfs_offset : offset squashfs_part = 1157847%N.
Proof. reflexivity. Qed.

(** A read depends on the bytes at the positions it covers only. *)
Lemma slice_agree (img img' : list Byte.byte) pos n :
  (∀ i : nat, Z.of_N pos ≤ Z.of_nat i < Z.of_N pos + Z.of_N n →
     img !! i = img' !! i) →
  slice img pos n = slice img' pos n.
Proof.
  intros Hag. unfold slice. apply list_eq. intros i.
  rewrite !lookup_take, !lookup_drop. case_decide; [|reflexivity].
  apply Hag. lia.
Qed.

(** Two images that differ between two positions only. *)
Lemma agree_outside (pre g g' post : list Byte.byte) (i : nat) :
  length g = length g' →
  (i < length pre ∨ length pre + length g ≤ i)%nat →
  (pre ++ g ++ post) !! i = (pre ++ g' ++ post) !! i.
Proof.
  intros Hlen [Hlt|Hge].
  - by rewrite !lookup_app_l.
  - rewrite !(lookup_app_r pre) by lia. rewrite !lookup_app_r by lia.
    by rewrite Hlen.
Qed.

Lemma slice_beyond content pos n :
  (length content ≤ N.to_nat pos)%nat → slice content pos n = [].
Proof. intros Hle. unfold slice. by rewrite drop_ge, take_nil. Qed.

Section Proofs.

Variable canon : string → string.

Ltac run := cbv [mbind mret M_bind M_ret bind ret raise getitem print open_rb
                 open_wb seek read read_all write close files stdout r_file
                 r_pos w_file].

(** One iteration of the [unpack] loop. *)
Lemma unpack_part_run part f w :
  let k := canon (name part) in
  let data :=
    slice (default [] (<[k := []]> (files w) !! r_file f)) (offset part) (size part) in
  unpack_part canon part f w =
    (World (<[k := data]> (files w))
           (stdout w ++ ["Wrote " +:+ name part +:+ " - " +:+ hex (len data) +:+ " bytes"]),
     Returned (Reader (r_file f) (offset part + N.of_nat (length data)))).
Proof.
  destruct w as [fs out], f as [kf pos]. unfold unpack_part. run.
  rewrite lookup_insert_eq, insert_insert_eq. reflexivity.
Qed.

(** The [unpack] loop when the source is none of the files it writes: every
    read sees the image as it was. *)
Lemma unpack_loop_run parts : ∀ f w img,
  files w !! r_file f = Some img →
  Forall (λ p, canon (name p) ≠ r_file f) parts →
  ∃ f', r_file f' = r_file f ∧
    for_in parts (unpack_part canon) f w =
      (World (unpack_files canon img parts (files w))
             (stdout w ++ map (unpack_line img) parts),
       Returned f').
Proof.
  induction parts as [|p parts IH]; intros f w img Hsrc Hne.
  - exists f. split; [reflexivity|]. destruct w as [fs out]. simpl.
    unfold mret, M_ret, ret. simpl. by rewrite app_nil_r.
  - apply Forall_cons in Hne as [Hp Hne].
    change (for_in (p :: parts) (unpack_part canon) f w)
      with (bind (for_in parts (unpack_part canon)) (unpack_part canon p f) w).
    unfold bind. rewrite unpack_part_run.
    rewrite lookup_insert_ne, Hsrc by done. cbn [default].
    lazymatch goal with
    | |- context [for_in parts _ ?f1 ?w1] =>
        destruct (IH f1 w1 img) as (f' & Hf' & ->)
    end.
    + cbn [files r_file]. by rewrite lookup_insert_ne.
    + exact Hne.
    + exists f'. split; [exact Hf'|]. cbn [files stdout unpack_files foldl map].
      by rewrite <- app_assoc.
Qed.

(** One iteration of the [pack] loop, the part file present. *)
Lemma pack_part_run part f w data :
  files w !! canon (name part) = Some data →
  pack_part canon part f w =
    (World (<[w_file f := default [] (files w !! w_file f) ++ padded part data]>
              (files w))
           (stdout w ++
              [ "Wrote " +:+ name part +:+ " - " +:+ hex (len data) +:+ " bytes";
                "Padding: " +:+ hex (Z.of_N (size part) - len data) ]),
     Returned f).
Proof.
  intros Hd. destruct w as [fs out], f as [kf]. unfold pack_part. run.
  cbn [files] in Hd. rewrite Hd. run. rewrite Hd.
  rewrite lookup_insert_eq, insert_insert_eq.
  change (N.to_nat 0) with 0%nat. cbn [from_option id drop].
  unfold padded. by rewrite <- !app_assoc.
Qed.

(** One iteration of the [pack] loop, the part file absent: nothing is
    written or printed. *)
Lemma pack_part_missing part f w :
  files w !! canon (name part) = None →
  pack_part canon part f w = (w, Raised FileNotFoundError).
Proof.
  intros Hd. destruct w as [fs out]. unfold pack_part. run.
  cbn [files] in Hd. by rewrite Hd.
Qed.

(** The [pack] loop when the image is none of the part files and every part
    file is present. *)
Lemma pack_loop_run parts : ∀ f w acc,
  files w !! w_file f = Some acc →
  Forall (λ p, canon (name p) ≠ w_file f ∧ is_Some (files w !! canon (name p)))
         parts →
  for_in parts (pack_part canon) f w =
    (World (<[w_file f := acc ++ pack_image canon (files w) parts]> (files w))
           (stdout w ++ flat_map (pack_lines canon (files w)) parts),
     Returned f).
Proof.
  induction parts as [|p parts IH]; intros f w acc Hacc Hall.
  - destruct w as [fs out]. cbn [for_in pack_image flat_map files stdout] in *.
    unfold mret, M_ret, ret. by rewrite !app_nil_r, insert_id.
  - apply Forall_cons in Hall as [[Hp [d Hd]] Hall].
    change (for_in (p :: parts) (pack_part canon) f w)
      with (bind (for_in parts (pack_part canon)) (pack_part canon p f) w).
    unfold bind. rewrite (pack_part_run _ _ _ _ Hd), Hacc. cbn [default].
    rewrite (IH _ _ (acc ++ padded p d)); cbn [files stdout].
    + rewrite insert_insert_eq.
      assert (Hsame : ∀ q, q ∈ parts →
                part_bytes canon (<[w_file f := acc ++ padded p d]> (files w)) q
                = part_bytes canon (files w) q).
      { intros q Hq. unfold part_bytes.
        rewrite Forall_forall in Hall. destruct (Hall q Hq) as [Hne _].
        by rewrite lookup_insert_ne. }
      assert (Himg : pack_image canon (<[w_file f := acc ++ padded p d]> (files w)) parts
                     = pack_image canon (files w) parts).
      { unfold pack_image. rewrite !flat_map_concat_map. f_equal.
        apply map_ext_in. intros q Hq%list_elem_of_In. by rewrite Hsame. }
      assert (Hout : flat_map (pack_lines canon (<[w_file f := acc ++ padded p d]> (files w))) parts
                     = flat_map (pack_lines canon (files w)) parts).
      { rewrite !flat_map_concat_map. f_equal.
        apply map_ext_in. intros q Hq%list_elem_of_In.
        unfold pack_lines. by rewrite Hsame. }
      change (id acc) with acc. rewrite Himg, Hout.
      assert (Hpd : part_bytes canon (files w) p = d)
        by (unfold part_bytes; by rewrite Hd).
      unfold pack_image at 2. cbn [flat_map]. fold (pack_image canon (files w) parts).
      unfold pack_lines at 2. rewrite Hpd.
      by rewrite <- !app_assoc.
    + by rewrite lookup_insert_eq.
    + eapply Forall_impl; [exact Hall|]. intros q [Hne Hq]. split; [done|].
      by rewrite lookup_insert_ne.
Qed.

(** Writing a file that is none of the part files changes neither the image
    [pack] builds from them nor the lines it prints. *)
Lemma part_bytes_insert_ne fs k v p :
  canon (name p) ≠ k → part_bytes canon (<[k := v]> fs) p = part_bytes canon fs p.
Proof. intros Hne. unfold part_bytes. by rewrite lookup_insert_ne. Qed.

Lemma pack_image_insert_ne fs k v parts :
  Forall (λ p, canon (name p) ≠ k) parts →
  pack_image canon (<[k := v]> fs) parts = pack_image canon fs parts.
Proof.
  intros Hall. unfold pack_image. rewrite !flat_map_concat_map. f_equal.
  apply map_ext_in. intros q Hq%list_elem_of_In.
  rewrite Forall_forall in Hall. by rewrite part_bytes_insert_ne by auto.
Qed.

Lemma pack_lines_insert_ne fs k v parts :
  Forall (λ p, canon (name p) ≠ k) parts →
  flat_map (pack_lines canon (<[k := v]> fs)) parts
  = flat_map (pack_lines canon fs) parts.
Proof.
  intros Hall. rewrite !flat_map_concat_map. f_equal.
  apply map_ext_in. intros q Hq%list_elem_of_In.
  rewrite Forall_forall in Hall. unfold pack_lines.
  by rewrite part_bytes_insert_ne by auto.
Qed.

(** The [unpack] branch, the source present and none of the files written. *)
Lemma script_unpack_run parts prog src rest w img :
  files w !! canon src = Some img →
  Forall (λ p, canon (name p) ≠ canon src) parts →
  script canon parts (prog :: "unpack" :: src :: rest) w =
    (World (unpack_files canon img parts (files w))
           (stdout w ++ map (unpack_line img) parts),
     Returned tt).
Proof.
  intros Hsrc Hne.
  destruct (unpack_loop_run parts (Reader (canon src) 0) w img Hsrc Hne)
    as (f' & _ & Hrun).
  destruct w as [fs out]. cbn [files stdout] in *.
  unfold script. run. cbn [lookup list_lookup String.eqb Ascii.eqb Bool.eqb].
  by rewrite Hsrc, Hrun.
Qed.

(** The [unpack] branch, the source absent: nothing is written or printed. *)
Lemma script_unpack_missing parts prog src rest w :
  files w !! canon src = None →
  script canon parts (prog :: "unpack" :: src :: rest) w
  = (w, Raised FileNotFoundError).
Proof.
  intros Hsrc. destruct w as [fs out]. cbn [files] in Hsrc.
  unfold script. run. cbn [lookup list_lookup String.eqb Ascii.eqb Bool.eqb].
  by rewrite Hsrc.
Qed.

(** The [pack] branch, every part file present and none of them the image. *)
Lemma script_pack_run parts prog dst rest w :
  Forall (λ p, canon (name p) ≠ canon dst ∧ is_Some (files w !! canon (name p)))
         (drop 1 parts) →
  script canon parts (prog :: "pack" :: dst :: rest) w =
    (World (<[canon dst := pack_image canon (files w) (drop 1 parts)]> (files w))
           (stdout w ++ flat_map (pack_lines canon (files w)) (drop 1 parts)),
     Returned tt).
Proof.
  intros Hall. destruct w as [fs out]. cbn [files stdout] in *.
  unfold script. run. cbn [lookup list_lookup String.eqb Ascii.eqb Bool.eqb].
  assert (Hne : Forall (λ p, canon (name p) ≠ canon dst) (drop 1 parts))
    by (eapply Forall_impl; [exact Hall|]; by intros q [? ?]).
  rewrite (pack_loop_run (drop 1 parts) (Writer (canon dst))
             (World (<[canon dst := []]> fs) out) []).
  - cbn [files stdout w_file app].
    by rewrite insert_insert_eq, pack_image_insert_ne, pack_lines_insert_ne.
  - cbn [files w_file]. by rewrite lookup_insert_eq.
  - cbn [files w_file]. eapply Forall_impl; [exact Hall|]. intros q [? ?].
    split; [done|]. by rewrite lookup_insert_ne.
Qed.

(** What [unpack] leaves in a file: the slice for the last descriptor that
    names it, and the old content if no descriptor does. *)
Lemma unpack_files_cons img p parts fs :
  unpack_files canon img (p :: parts) fs
  = unpack_files canon img parts
      (<[canon (name p) := slice img (offset p) (size p)]> fs).
Proof. reflexivity. Qed.

Lemma unpack_files_frame img parts : ∀ fs k,
  Forall (λ p, canon (name p) ≠ k) parts →
  unpack_files canon img parts fs !! k = fs !! k.
Proof.
  induction parts as [|p parts IH]; intros fs k Hne; [reflexivity|].
  apply Forall_cons in Hne as [Hp Hne].
  by rewrite unpack_files_cons, IH, lookup_insert_ne.
Qed.

Lemma unpack_files_lookup img parts : ∀ fs p,
  NoDup (map (λ p, canon (name p)) parts) →
  p ∈ parts →
  unpack_files canon img parts fs !! canon (name p)
  = Some (slice img (offset p) (size p)).
Proof.
  induction parts as [|q parts IH]; intros fs p Hnd Hp; [by apply elem_of_nil in Hp|].
  cbn [map] in Hnd. apply NoDup_cons in Hnd as [Hq Hnd].
  rewrite unpack_files_cons.
  apply elem_of_cons in Hp as [->|Hp].
  - rewrite unpack_files_frame, lookup_insert_eq; [done|].
    apply Forall_forall. intros r Hr Heq. apply Hq.
    rewrite <- Heq. apply list_elem_of_fmap. by exists r.
  - by apply IH.
Qed.

(** The [pack] branch of the program: the one part file it reads is
    [squashfs]. *)
Lemma main_pack_run prog dst rest w data :
  files w !! canon "squashfs" = Some data →
  canon "squashfs" ≠ canon dst →
  main canon (prog :: "pack" :: dst :: rest) w =
    (World (<[canon dst := padded squashfs_part data]> (files w))
           (stdout w ++
              [ "Wrote squashfs - " +:+ hex (len data) +:+ " bytes";
                "Padding: " +:+ hex (4347181 - len data) ]),
     Returned tt).
Proof.
  intros Hd Hne. unfold main. rewrite firmware_parts_eq, script_pack_run.
  - cbn [drop pack_image flat_map pack_lines]. unfold part_bytes.
    cbn [name squashfs_part]. rewrite Hd. cbn [from_option id].
    rewrite !app_nil_r. unfold pack_lines, part_bytes.
    cbn [name squashfs_part]. rewrite Hd. reflexivity.
  - cbn [drop]. apply Forall_cons. split; [|by apply Forall_nil].
    cbn [name squashfs_part]. by rewrite Hd.
Qed.

(** The [unpack] loop on an empty source: every part comes out empty, also
    when the source is one of the files it writes. *)
Lemma unpack_loop_emptied parts : ∀ f w,
  files w !! r_file f = Some [] →
  ∃ w' f', for_in parts (unpack_part canon) f w = (w', Returned f')
           ∧ files w' !! r_file f = Some [].
Proof.
  induction parts as [|p parts IH]; intros f w Hsrc.
  - by exists w, f.
  - change (for_in (p :: parts) (unpack_part canon) f w)
      with (bind (for_in parts (unpack_part canon)) (unpack_part canon p f) w).
    unfold bind. rewrite unpack_part_run.
    assert (Hread : default [] (<[canon (name p) := []]> (files w) !! r_file f) = []).
    { destruct (decide (canon (name p) = r_file f)) as [->|Hne].
      - by rewrite lookup_insert_eq.
      - by rewrite lookup_insert_ne, Hsrc. }
    rewrite Hread, slice_nil.
    lazymatch goal with
    | |- context [for_in parts _ ?f1 ?w1] =>
        destruct (IH f1 w1) as (w' & f' & -> & Hw')
    end.
    + cbn [files r_file].
      destruct (decide (canon (name p) = r_file f)) as [->|Hne].
      * by rewrite lookup_insert_eq.
      * by rewrite lookup_insert_ne.
    + by exists w', f'.
Qed.

(** [unpack] of a source that is the first descriptor's own file: the file is
    truncated before it is read, and is empty at the end of the run. *)
Lemma script_unpack_first_file first others prog src rest w :
  canon (name first) = canon src →
  is_Some (files w !! canon src) →
  (script canon (first :: others) (prog :: "unpack" :: src :: rest) w).2
  = Returned tt
  ∧ files (script canon (first :: others) (prog :: "unpack" :: src :: rest) w).1
      !! canon src
    = Some [].
Proof.
  intros Hsame [img Hsrc].
  assert (Hloop : ∃ w' f',
    for_in (first :: others) (unpack_part canon) (Reader (canon src) 0) w
    = (w', Returned f') ∧ files w' !! canon src = Some []).
  { change (for_in (first :: others) (unpack_part canon) (Reader (canon src) 0) w)
      with (bind (for_in others (unpack_part canon))
              (unpack_part canon first (Reader (canon src) 0)) w).
    unfold bind. rewrite unpack_part_run. cbn [r_file].
    rewrite Hsame, lookup_insert_eq. cbn [from_option id]. rewrite slice_nil.
    lazymatch goal with
    | |- context [for_in others _ ?f1 ?w1] =>
        destruct (unpack_loop_emptied others f1 w1) as (w' & f' & -> & Hw')
    end.
    - cbn [files r_file]. by rewrite lookup_insert_eq.
    - by exists w', f'. }
  destruct Hloop as (w' & f' & Hrun & Hw').
  destruct w as [fs out]. cbn [files] in Hsrc.
  unfold script. run. cbn [lookup list_lookup String.eqb Ascii.eqb Bool.eqb].
  rewrite Hsrc, Hrun. by split.
Qed.

(** ** The extraction contract of [unpack] *)

(** C6. Given a source image that is none of the files the table names,
    [unpack] runs to the end of the script; for every descriptor, in table
    order, it puts in the file the descriptor names (created, or overwritten
    if it was there) the bytes of the image from [offset] on, at most [size]
    of them, and prints one line with the name and the number of bytes
    written, in hexadecimal; no other file changes. *)
Theorem unpack_contract parts prog src rest w img :
  files w !! canon src = Some img →
  Forall (λ p, canon (name p) ≠ canon src) parts →
  script canon parts (prog :: "unpack" :: src :: rest) w =
    (World
       (foldl (λ fs p,
                 <[canon (name p) :=
                     take (N.to_nat (size p)) (drop (N.to_nat (offset p)) img)]> fs)
              (files w) parts)
       (stdout w ++
          map (λ p,
                 "Wrote " +:+ name p +:+ " - "
                 +:+ hex (Z.of_nat (length (take (N.to_nat (size p))
                                              (drop (N.to_nat (offset p)) img))))
                 +:+ " bytes")
              parts),
     Returned tt).
Proof. intros Hsrc Hne. by rewrite (script_unpack_run _ _ _ _ _ img). Qed.

(** ** The padding law and the order of [pack] *)

Lemma padded_fits p data :
  len data ≤ Z.of_N (size p) →
  padded p data = data ++ replicate (N.to_nat (size p) - length data) Byte.x00
  ∧ length (padded p data) = N.to_nat (size p).
Proof.
  unfold padded, zeros, len. intros Hle.
  replace (Z.to_nat (Z.of_N (size p) - Z.of_nat (length data)))
    with (N.to_nat (size p) - length data)%nat by lia.
  split; [reflexivity|]. rewrite length_app, length_replicate. lia.
Qed.

Lemma padded_oversize p data :
  Z.of_N (size p) < len data → padded p data = data.
Proof.
  unfold padded, zeros, len. intros Hlt.
  replace (Z.to_nat (Z.of_N (size p) - Z.of_nat (length data))) with 0%nat by lia.
  cbn [replicate]. by rewrite app_nil_r.
Qed.

(** C2. Given part files for all descriptors after the first, none of them
    the output image, [pack] runs to the end of the script and the image is
    the concatenation of what it writes per descriptor: the content of the
    part file followed by the zero padding.  For every part file whose length
    L is at most the declared size, that is the L content bytes followed by
    exactly size - L zero bytes, size bytes in all. *)
Theorem pack_padding_law parts prog dst rest w :
  Forall (λ p, canon (name p) ≠ canon dst ∧ is_Some (files w !! canon (name p)))
         (drop 1 parts) →
  (script canon parts (prog :: "pack" :: dst :: rest) w).2 = Returned tt
  ∧ files (script canon parts (prog :: "pack" :: dst :: rest) w).1 !! canon dst
    = Some (concat (map (λ p, padded p (part_bytes canon (files w) p))
                        (drop 1 parts)))
  ∧ Forall (λ p,
       Z.of_nat (length (part_bytes canon (files w) p)) ≤ Z.of_N (size p) →
       padded p (part_bytes canon (files w) p)
       = part_bytes canon (files w) p
         ++ replicate (N.to_nat (size p) - length (part_bytes canon (files w) p))
                      Byte.x00
       ∧ length (padded p (part_bytes canon (files w) p)) = N.to_nat (size p))
      (drop 1 parts).
Proof.
  intros Hall. rewrite (script_pack_run _ _ _ _ _ Hall). cbn [fst snd files].
  split; [reflexivity|]. split.
  - rewrite lookup_insert_eq. unfold pack_image. by rewrite flat_map_concat_map.
  - apply Forall_forall. intros p _ Hle. by apply padded_fits.
Qed.

(** C5. [pack] handles exactly the descriptors after the first one, in table
    order: the image is the concatenation, in that order, of what it writes
    for each of them, and the lines it prints come in the same order.  The
    first descriptor is neither read nor written: its part file need not
    exist, no file but the image changes, and the result is the same whatever
    the first descriptor is. *)
Theorem pack_skips_first_in_order first others prog dst rest w :
  Forall (λ p, canon (name p) ≠ canon dst ∧ is_Some (files w !! canon (name p)))
         others →
  script canon (first :: others) (prog :: "pack" :: dst :: rest) w =
    (World
       (<[canon dst :=
            concat (map (λ p, part_bytes canon (files w) p
                              ++ zeros (Z.of_N (size p)
                                        - len (part_bytes canon (files w) p)))
                        others)]> (files w))
       (stdout w ++ concat (map (pack_lines canon (files w)) others)),
     Returned tt)
  ∧ (∀ k, k ≠ canon dst →
       files (script canon (first :: others) (prog :: "pack" :: dst :: rest) w).1 !! k
       = files w !! k)
  ∧ (∀ first',
       script canon (first' :: others) (prog :: "pack" :: dst :: rest) w
       = script canon (first :: others) (prog :: "pack" :: dst :: rest) w).
Proof.
  intros Hall.
  assert (Hrun : ∀ p0, script canon (p0 :: others) (prog :: "pack" :: dst :: rest) w =
    (World (<[canon dst := pack_image canon (files w) others]> (files w))
           (stdout w ++ flat_map (pack_lines canon (files w)) others),
     Returned tt)) by (intros p0; by apply script_pack_run).
  split; [|split].
  - rewrite Hrun. unfold pack_image, padded. by rewrite !flat_map_concat_map.
  - intros k Hk. rewrite Hrun. cbn [fst files]. by rewrite lookup_insert_ne.
  - intros first'. by rewrite !Hrun.
Qed.

(** The [unpack] branch of the program: the part files and the report. *)
Lemma main_unpack_run prog src rest w img :
  files w !! canon src = Some img →
  canon "uimage_kernel" ≠ canon src →
  canon "squashfs" ≠ canon src →
  main canon (prog :: "unpack" :: src :: rest) w =
    (World (<[canon "squashfs" := slice img (offset squashfs_part) (size squashfs_part)]>
              (<[canon "uimage_kernel" := slice img (offset kernel_part) (size kernel_part)]>
                 (files w)))
           (stdout w ++ [unpack_line img kernel_part; unpack_line img squashfs_part]),
     Returned tt).
Proof.
  intros Hsrc Hk Hs. unfold main. rewrite firmware_parts_eq.
  rewrite (script_unpack_run _ _ _ _ _ img Hsrc); [reflexivity|].
  apply Forall_cons. split; [exact Hk|].
  apply Forall_cons. split; [exact Hs|]. by apply Forall_nil.
Qed.

(** ** Determinism *)

Lemma agree_insert K w1 w2 k v1 v2 l1 l2 :
  agree K w1 w2 → v1 = v2 → l1 = l2 →
  agree (λ k', k' = k ∨ K k')
        (World (<[k := v1]> (files w1)) (stdout w1 ++ l1))
        (World (<[k := v2]> (files w2)) (stdout w2 ++ l2)).
Proof.
  intros [Hout Hfs] -> ->. split; cbn [files stdout]; [by rewrite Hout|].
  intros k' Hk'. rewrite !lookup_insert. case_decide; [reflexivity|].
  destruct Hk' as [->|Hk']; [done|by apply Hfs].
Qed.

Lemma agree_weaken (K K' : string → Prop) w1 w2 :
  (∀ k, K' k → K k) → agree K w1 w2 → agree K' w1 w2.
Proof. intros Hsub [Hout Hfs]. split; [exact Hout|]. intros k Hk. by apply Hfs, Hsub. Qed.

(** The [unpack] loop on two worlds that agree on the source image: the same
    outcome, and agreement on every file written as well. *)
Lemma unpack_loop_agree parts : ∀ K f w1 w2,
  K (r_file f) →
  agree K w1 w2 →
  (for_in parts (unpack_part canon) f w1).2 = (for_in parts (unpack_part canon) f w2).2
  ∧ is_Some (match (for_in parts (unpack_part canon) f w1).2 with
             | Returned _ => Some tt
             | Raised _ => None
             end)
  ∧ agree (λ k, K k ∨ Exists (λ p, k = canon (name p)) parts)
          (for_in parts (unpack_part canon) f w1).1
          (for_in parts (unpack_part canon) f w2).1.
Proof.
  induction parts as [|p parts IH]; intros K f w1 w2 Hf Hag.
  - cbn [for_in]. unfold mret, M_ret, ret. cbn [fst snd].
    split; [reflexivity|]. split; [by eexists|].
    eapply agree_weaken; [|exact Hag]. intros k [Hk|Hk]; [exact Hk|].
    by apply Exists_nil in Hk.
  - change (for_in (p :: parts) (unpack_part canon) f)
      with (bind (for_in parts (unpack_part canon)) (unpack_part canon p f)).
    unfold bind. rewrite !unpack_part_run.
    assert (Hdata : default [] (<[canon (name p) := []]> (files w1) !! r_file f)
                    = default [] (<[canon (name p) := []]> (files w2) !! r_file f)).
    { rewrite !lookup_insert. case_decide; [reflexivity|].
      destruct Hag as [_ Hfs]. by rewrite (Hfs _ Hf). }
    rewrite Hdata.
    lazymatch goal with
    | |- context [for_in parts _ ?f1 (World (<[?k := ?d]> _) (_ ++ ?l))] =>
        pose proof (IH (λ k', k' = k ∨ K k') f1 _ _ (or_intror Hf)
                      (agree_insert K w1 w2 k d d l l Hag eq_refl eq_refl))
          as (Ho & Hr & Hag')
    end.
    split; [exact Ho|]. split; [exact Hr|].
    eapply agree_weaken; [|exact Hag'].
    intros k [Hk|Hk]; [by left; right|].
    apply Exists_cons in Hk as [->|Hk]; [by left; left|by right].
Qed.

(** The [pack] loop on two worlds that agree on the part files and on the
    image written so far: the same outcome, and the same image. *)
Lemma pack_loop_agree parts : ∀ (K : string → Prop) f w1 w2,
  K (w_file f) →
  Forall (λ p, K (canon (name p))) parts →
  agree K w1 w2 →
  (for_in parts (pack_part canon) f w1).2 = (for_in parts (pack_part canon) f w2).2
  ∧ agree K (for_in parts (pack_part canon) f w1).1
            (for_in parts (pack_part canon) f w2).1.
Proof.
  induction parts as [|p parts IH]; intros K f w1 w2 Hf Hall Hag.
  - cbn [for_in]. unfold mret, M_ret, ret. cbn [fst snd]. by split.
  - apply Forall_cons in Hall as [Hp Hall].
    change (for_in (p :: parts) (pack_part canon) f)
      with (bind (for_in parts (pack_part canon)) (pack_part canon p f)).
    unfold bind. pose proof Hag as [Hout Hfs].
    pose proof (Hfs _ Hp) as Hsame.
    destruct (files w1 !! canon (name p)) as [d|] eqn:Hd.
    + rewrite (pack_part_run p f w1 d Hd), (pack_part_run p f w2 d (eq_sym Hsame)).
      rewrite <- (Hfs _ Hf).
      lazymatch goal with
      | |- context [for_in parts _ f (World (<[?k := ?d']> _) (_ ++ ?l))] =>
          pose proof (agree_insert K w1 w2 k d' d' l l Hag eq_refl eq_refl) as Hag'
      end.
      apply IH; [exact Hf|exact Hall|].
      eapply agree_weaken; [|exact Hag']. intros k Hk. by right.
    + rewrite (pack_part_missing p f w1 Hd), (pack_part_missing p f w2 (eq_sym Hsame)).
      by split.
Qed.

(** C10. A run is a function of the bytes of the files it reads: two runs
    with the same command line, from worlds that hold the same bytes in those
    files (whatever else they hold), end the same way and print the same
    lines, byte counts included; and when they end normally, the files they
    write hold the same bytes.  For [unpack] the file read is the source
    image and the files written are the part files; for [pack] the files read
    are the part files and the file written is the image. *)
Theorem run_deterministic parts argv w1 w2 :
  stdout w1 = stdout w2 →
  (∀ k, k ∈ reads_of canon parts argv → files w1 !! k = files w2 !! k) →
  (script canon parts argv w1).2 = (script canon parts argv w2).2
  ∧ stdout (script canon parts argv w1).1 = stdout (script canon parts argv w2).1
  ∧ ((script canon parts argv w1).2 = Returned tt →
     ∀ k, k ∈ writes_of canon parts argv →
       files (script canon parts argv w1).1 !! k
       = files (script canon parts argv w2).1 !! k).
Proof.
  intros Hout Hreads.
  assert (Hag : agree (λ k, k ∈ reads_of canon parts argv) w1 w2)
    by (split; [exact Hout|exact Hreads]).
  clear Hreads.
  destruct argv as [|prog [|sub [|path rest]]].
  - destruct w1, w2. cbn in *. by subst.
  - destruct w1, w2. cbn in *. by subst.
  - destruct w1, w2. unfold script. run. cbn [lookup list_lookup]. cbn in Hout.
    subst. unfold writes_of.
    destruct (String.eqb sub "unpack"), (String.eqb sub "pack"); cbn [fst snd];
      (split; [reflexivity|]; split; [reflexivity|];
       intros _ k Hk; by apply elem_of_nil in Hk).
  - unfold script, reads_of, writes_of in *.
    destruct (String.eqb sub "unpack") eqn:Hu;
      [|destruct (String.eqb sub "pack") eqn:Hp].
    + (* unpack *)
      destruct Hag as [_ Hfs]. pose proof (Hfs (canon path)) as Hsrc.
      rewrite list_elem_of_singleton in Hsrc. specialize (Hsrc eq_refl).
      assert (Hag0 : agree (λ k, k = canon path) w1 w2)
        by (split; [exact Hout|by intros k ->]).
      pose proof (unpack_loop_agree parts (λ k, k = canon path)
                    (Reader (canon path) 0) w1 w2 eq_refl Hag0)
        as (Ho & Hr & [Hout' Hfs']).
      clear Hag0.
      destruct w1 as [fs1 out1], w2 as [fs2 out2]. cbn [files stdout] in *.
      run. cbn [lookup list_lookup]. rewrite Hu. rewrite <- Hsrc.
      destruct (fs1 !! canon path) as [img|];
        [|cbn [fst snd stdout]; split; [reflexivity|]; split; [exact Hout|];
          intros [=]].
      destruct (for_in parts _ _ {| files := fs1 |}) as [w1' [f1|e1]],
               (for_in parts _ _ {| files := fs2 |}) as [w2' [f2|e2]];
        cbn [fst snd] in *; try done.
      split; [reflexivity|]. split; [exact Hout'|].
      intros _ k Hk. apply Hfs'. right.
      apply list_elem_of_fmap in Hk as (p & -> & Hp).
      apply Exists_exists. by exists p.
    + (* pack *)
      pose proof (pack_loop_agree (drop 1 parts)
                    (λ k, k = canon path
                          ∨ k ∈ map (λ p, canon (name p)) (drop 1 parts))
                    (Writer (canon path))
                    (World (<[canon path := []]> (files w1)) (stdout w1 ++ []))
                    (World (<[canon path := []]> (files w2)) (stdout w2 ++ [])))
        as Hloop.
      destruct Hloop as (Ho & [Hout' Hfs']).
      { by left. }
      { apply Forall_forall. intros p Hp'. right.
        apply list_elem_of_fmap. by exists p. }
      { by apply agree_insert. }
      rewrite !app_nil_r in *.
      destruct w1 as [fs1 out1], w2 as [fs2 out2]. cbn [files stdout] in *.
      run. cbn [lookup list_lookup]. rewrite Hu, Hp.
      destruct (for_in (drop 1 parts) _ _ {| files := <[_ := _]> fs1 |})
        as [w1' [f1|e1]],
               (for_in (drop 1 parts) _ _ {| files := <[_ := _]> fs2 |})
        as [w2' [f2|e2]];
        cbn [fst snd] in *; try done.
      * split; [reflexivity|]. split; [exact Hout'|].
        intros _ k Hk%list_elem_of_singleton. apply Hfs'. by left.
      * injection Ho as ->. split; [reflexivity|]. split; [exact Hout'|].
        intros [=].
    + destruct w1 as [fs1 out1], w2 as [fs2 out2]. cbn [files stdout] in *.
      run. cbn [lookup list_lookup]. rewrite Hu, Hp. cbn [fst snd stdout].
      split; [reflexivity|]. split; [exact Hout|].
      intros _ k Hk. by apply elem_of_nil in Hk.
Qed.

(** ** The round trip *)





(** ** The gap of the table *)

(** C9. The table covers [0, 0x11AA97) and [0x11AAD7, 5505028), which leaves
    the 0x40 bytes from 0x11AA97 on to neither descriptor.  Those bytes reach
    no output of [unpack]: two source images that agree everywhere else give
    the same outcome, the same report and the same part files, so the parts
    do not determine them. *)
Theorem table_gap_lost prog src rest w w' img img' :
  files w !! canon src = Some img →
  files w' !! canon src = Some img' →
  canon "uimage_kernel" ≠ canon src →
  canon "squashfs" ≠ canon src →
  stdout w = stdout w' →
  (∀ i : nat, Z.of_nat i < 0x11AA97 ∨ 0x11AAD7 ≤ Z.of_nat i → img !! i = img' !! i) →
  map (λ p, (name p, Z.of_N (offset p), Z.of_N (offset p) + Z.of_N (size p)))
      firmware_parts
  = [("uimage_kernel", 0x0, 0x11AA97); ("squashfs", 0x11AAD7, 5505028)]
  ∧ 0x11AA97 + 0x40 = 0x11AAD7
  ∧ (main canon (prog :: "unpack" :: src :: rest) w).2
    = (main canon (prog :: "unpack" :: src :: rest) w').2
  ∧ stdout (main canon (prog :: "unpack" :: src :: rest) w).1
    = stdout (main canon (prog :: "unpack" :: src :: rest) w').1
  ∧ ∀ p, p ∈ firmware_parts →
      files (main canon (prog :: "unpack" :: src :: rest) w).1 !! canon (name p)
      = files (main canon (prog :: "unpack" :: src :: rest) w').1 !! canon (name p).
Proof.
  intros Hsrc Hsrc' Hk Hs Hout Hag.
  assert (Hs1 : slice img (offset kernel_part) (size kernel_part)
                = slice img' (offset kernel_part) (size kernel_part)).
  { apply slice_agree. intros i Hi. apply Hag. left.
    rewrite kernel_size in Hi. cbn [offset kernel_part] in Hi. lia. }
  assert (Hs2 : slice img (offset squashfs_part) (size squashfs_part)
                = slice img' (offset squashfs_part) (size squashfs_part)).
  { apply slice_agree. intros i Hi. apply Hag. right.
    rewrite squashfs_offset in Hi. lia. }
  split; [reflexivity|]. split; [reflexivity|].
  rewrite (main_unpack_run _ _ _ _ img Hsrc Hk Hs).
  rewrite (main_unpack_run _ _ _ _ img' Hsrc' Hk Hs).
  cbn [fst snd files stdout]. unfold unpack_line. rewrite Hs1, Hs2, Hout.
  split; [reflexivity|]. split; [reflexivity|].
  intros p Hp. rewrite !lookup_insert. repeat case_decide; try reflexivity.
  rewrite firmware_parts_eq in Hp.
  apply elem_of_cons in Hp as [->|Hp]; [by cbn [name kernel_part] in *|].
  apply list_elem_of_singleton in Hp as ->. by cbn [name squashfs_part] in *.
Qed.

(** ** Inputs the script does not check *)

(** C3, as the script has it.  A [squashfs] part file longer than the declared
    size is not rejected: [pack] runs to the end of the script, the image is
    the whole part file, neither truncated nor padded, and the padding it
    prints is negative. *)
Theorem pack_oversize_not_rejected prog dst rest w data :
  files w !! canon "squashfs" = Some data →
  canon "squashfs" ≠ canon dst →
  Z.of_N (size squashfs_part) < len data →
  main canon (prog :: "pack" :: dst :: rest) w =
    (World (<[canon dst := data]> (files w))
           (stdout w ++
              [ "Wrote squashfs - " +:+ hex (len data) +:+ " bytes";
                "Padding: " +:+ hex (4347181 - len data) ]),
     Returned tt)
  ∧ 4347181 - len data < 0.
Proof.
  intros Hd Hne Hlt. rewrite (main_pack_run _ _ _ _ data Hd Hne).
  rewrite padded_oversize by exact Hlt. split; [reflexivity|].
  rewrite squashfs_size in Hlt. lia.
Qed.

(** C4, as the script has it.  A source image that ends before
    [offset + size] of a descriptor is not rejected: [unpack] runs to the end
    of the script, and the part file of that descriptor holds the bytes the
    image has from [offset] on, none if it ends before [offset]. *)
Theorem unpack_short_source_not_rejected parts prog src rest w img :
  files w !! canon src = Some img →
  Forall (λ p, canon (name p) ≠ canon src) parts →
  NoDup (map (λ p, canon (name p)) parts) →
  (script canon parts (prog :: "unpack" :: src :: rest) w).2 = Returned tt
  ∧ ∀ p, p ∈ parts →
      len img < Z.of_N (offset p) + Z.of_N (size p) →
      files (script canon parts (prog :: "unpack" :: src :: rest) w).1
        !! canon (name p)
      = Some (drop (N.to_nat (offset p)) img)
      ∧ len (drop (N.to_nat (offset p)) img)
        = Z.max 0 (len img - Z.of_N (offset p)).
Proof.
  intros Hsrc Hne Hnd. rewrite (script_unpack_run _ _ _ _ _ img Hsrc Hne).
  cbn [fst snd files]. split; [reflexivity|]. intros p Hp Hshort.
  rewrite unpack_files_lookup by done. unfold len in *.
  rewrite slice_short by lia. split; [reflexivity|].
  rewrite length_drop. lia.
Qed.

(** C7, as the script has it.  With no subcommand the script dies of an
    uncaught [IndexError] (exit status 1); with a subcommand that is neither
    [unpack] nor [pack] it reaches its end, prints nothing and exits with
    status 0.  In both cases no file is touched. *)
Theorem usage_without_subcommand argv w :
  (∀ a, argv !! 1%nat = Some a → a ≠ "unpack" ∧ a ≠ "pack") →
  main canon argv w =
    (w, match argv !! 1%nat with
        | Some _ => Returned tt
        | None => Raised IndexError
        end)
  ∧ exit_status (main canon argv w).2 = (if argv !! 1%nat is Some _ then 0 else 1).
Proof.
  intros Husage.
  assert (Hrun : main canon argv w =
    (w, match argv !! 1%nat with
        | Some _ => Returned tt
        | None => Raised IndexError
        end)).
  { unfold main, script. run.
    destruct (argv !! 1%nat) as [a|] eqn:Ha; [|reflexivity].
    destruct (Husage a eq_refl) as [Hu Hp].
    apply String.eqb_neq in Hu, Hp. by rewrite Hu, Hp. }
  split; [exact Hrun|]. rewrite Hrun. by destruct (argv !! 1%nat).
Qed.

(** C8, as the script has it.  [unpack] changes no file but those the table
    names, whatever the source is and however the run ends; in particular
    the source image ([k] the file [sys.argv[2]] denotes) is unchanged when
    it is none of those files. *)
Theorem unpack_frame parts prog src rest w k :
  Forall (λ p, canon (name p) ≠ k) parts →
  files (script canon parts (prog :: "unpack" :: src :: rest) w).1 !! k
  = files w !! k.
Proof.
  intros Hne.
  assert (Hloop : ∀ l f w0, Forall (λ p, canon (name p) ≠ k) l →
            files (for_in l (unpack_part canon) f w0).1 !! k = files w0 !! k).
  { induction l as [|p l IH]; intros f w0 Hl; [reflexivity|].
    apply Forall_cons in Hl as [Hp Hl].
    change (for_in (p :: l) (unpack_part canon) f w0)
      with (bind (for_in l (unpack_part canon)) (unpack_part canon p f) w0).
    unfold bind. rewrite unpack_part_run. rewrite IH by done.
    cbn [files]. by rewrite lookup_insert_ne. }
  specialize (Hloop parts (Reader (canon src) 0) w Hne).
  destruct w as [fs out]. unfold script. run.
  cbn [lookup list_lookup String.eqb Ascii.eqb Bool.eqb].
  destruct (fs !! canon src) as [img|]; [|reflexivity].
  destruct (for_in parts (unpack_part canon) _ _) as [w' [f'|e]];
    cbn [fst] in *; exact Hloop.
Qed.

(** ** Errors of the command line and of the files *)

(** A subcommand without its path argument: [sys.argv[2]] raises
    [IndexError] before any file is opened, so nothing is created, truncated
    or printed. *)
Theorem missing_path_argument parts prog sub w :
  sub = "unpack" ∨ sub = "pack" →
  script canon parts [prog; sub] w = (w, Raised IndexError)
  ∧ exit_status (script canon parts [prog; sub] w).2 = 1.
Proof.
  intros [-> | ->]; destruct w as [fs out]; split; reflexivity.
Qed.

(** [unpack] of a source image that does not exist: [FileNotFoundError], and
    since the source is opened before the loop, no part file is created or
    truncated and nothing is printed. *)
Theorem unpack_absent_source parts prog src rest w :
  files w !! canon src = None →
  script canon parts (prog :: "unpack" :: src :: rest) w
  = (w, Raised FileNotFoundError)
  ∧ exit_status (script canon parts (prog :: "unpack" :: src :: rest) w).2 = 1.
Proof.
  intros Hsrc. rewrite (script_unpack_missing _ _ _ _ _ Hsrc). by split.
Qed.

Lemma for_in_app {A S} (l1 l2 : list A) (body : A → S → M S) : ∀ s w,
  for_in (l1 ++ l2) body s w = bind (for_in l2 body) (for_in l1 body s) w.
Proof.
  induction l1 as [|x l1 IH]; intros s w; [reflexivity|].
  cbn [app for_in]. unfold mbind, M_bind, bind in *.
  destruct (body x s w) as [w' [s'|e]]; [apply IH|reflexivity].
Qed.

(** [pack] when the part file of a descriptor is missing: the image was
    created, or truncated, before any part file was opened, so the run ends
    in [FileNotFoundError] with an image that holds what was written for the
    descriptors before the missing one, and nothing if it is the first of
    them.  Whatever the image held before is lost. *)
Theorem pack_missing_part first before p after prog dst rest w :
  Forall (λ q, canon (name q) ≠ canon dst ∧ is_Some (files w !! canon (name q)))
         before →
  canon (name p) ≠ canon dst →
  files w !! canon (name p) = None →
  script canon (first :: before ++ p :: after) (prog :: "pack" :: dst :: rest) w
  = (World (<[canon dst := pack_image canon (files w) before]> (files w))
           (stdout w ++ flat_map (pack_lines canon (files w)) before),
     Raised FileNotFoundError).
Proof.
  intros Hall Hne Hmiss.
  assert (Hnes : Forall (λ q, canon (name q) ≠ canon dst) before)
    by (eapply Forall_impl; [exact Hall|]; by intros q [? ?]).
  assert (Hloop :
    for_in (before ++ p :: after) (pack_part canon) (Writer (canon dst))
      (World (<[canon dst := []]> (files w)) (stdout w))
    = (World (<[canon dst := pack_image canon (files w) before]> (files w))
             (stdout w ++ flat_map (pack_lines canon (files w)) before),
       Raised FileNotFoundError)).
  { rewrite for_in_app. unfold bind.
    rewrite (pack_loop_run before (Writer (canon dst)) _ []).
    - cbn [files stdout w_file app]. rewrite insert_insert_eq.
      rewrite pack_image_insert_ne, pack_lines_insert_ne by exact Hnes.
      change (for_in (p :: after) (pack_part canon) (Writer (canon dst)))
        with (bind (for_in after (pack_part canon))
                (pack_part canon p (Writer (canon dst)))).
      unfold bind. rewrite pack_part_missing; [reflexivity|].
      cbn [files]. by rewrite lookup_insert_ne.
    - cbn [files w_file]. by rewrite lookup_insert_eq.
    - cbn [files w_file]. eapply Forall_impl; [exact Hall|]. intros q [? ?].
      split; [done|]. by rewrite lookup_insert_ne. }
  destruct w as [fs out]. cbn [files stdout] in *.
  unfold script. run. cbn [lookup list_lookup String.eqb Ascii.eqb Bool.eqb].
  change (drop 1 (first :: before ++ p :: after)) with (before ++ p :: after).
  by rewrite Hloop.
Qed.

(** [pack] changes no file but the image, whatever the part files are and
    however the run ends: the part files are only read. *)
Theorem pack_frame parts prog dst rest w k :
  k ≠ canon dst →
  files (script canon parts (prog :: "pack" :: dst :: rest) w).1 !! k
  = files w !! k.
Proof.
  intros Hne.
  assert (Hloop : ∀ l w0,
            files (for_in l (pack_part canon) (Writer (canon dst)) w0).1 !! k
            = files w0 !! k).
  { induction l as [|p l IH]; intros w0; [reflexivity|].
    change (for_in (p :: l) (pack_part canon) (Writer (canon dst)) w0)
      with (bind (for_in l (pack_part canon))
              (pack_part canon p (Writer (canon dst))) w0).
    unfold bind. destruct (files w0 !! canon (name p)) as [d|] eqn:Hd.
    - rewrite (pack_part_run _ _ _ _ Hd), IH. cbn [files w_file].
      by rewrite lookup_insert_ne.
    - by rewrite (pack_part_missing _ _ _ Hd). }
  specialize (Hloop (drop 1 parts) (World (<[canon dst := []]> (files w)) (stdout w))).
  cbn [files] in Hloop. rewrite lookup_insert_ne in Hloop by done.
  destruct w as [fs out]. cbn [files stdout] in *.
  unfold script. run. cbn [lookup list_lookup String.eqb Ascii.eqb Bool.eqb].
  destruct (for_in (drop 1 parts) (pack_part canon) _ _) as [w' [f'|e]];
    cbn [fst] in *; exact Hloop.
Qed.

(** ** Sizes *)

Lemma padded_length p data :
  len (padded p data) = Z.max (Z.of_N (size p)) (len data).
Proof. unfold padded, zeros, len. rewrite length_app, length_replicate. lia. Qed.

Lemma pack_image_length fs parts :
  len (pack_image canon fs parts)
  = foldr (λ p n, Z.max (Z.of_N (size p)) (len (part_bytes canon fs p)) + n) 0 parts.
Proof.
  induction parts as [|p parts IH]; [reflexivity|].
  cbn [pack_image flat_map foldr]. fold (pack_image canon fs parts).
  unfold len in *. rewrite length_app, Nat2Z.inj_add, IH.
  f_equal. apply padded_length.
Qed.

(** The image [pack] writes takes, for every descriptor after the first, the
    larger of the declared size and the length of the part file: it is never
    shorter than the declared sizes add up to, and exactly that long when
    every part fits. *)
Theorem pack_image_size parts prog dst rest w :
  Forall (λ p, canon (name p) ≠ canon dst ∧ is_Some (files w !! canon (name p)))
         (drop 1 parts) →
  ∃ image,
    files (script canon parts (prog :: "pack" :: dst :: rest) w).1 !! canon dst
    = Some image
    ∧ len image
      = foldr (λ p n, Z.max (Z.of_N (size p)) (len (part_bytes canon (files w) p)) + n)
              0 (drop 1 parts)
    ∧ foldr (λ p n, Z.of_N (size p) + n) 0 (drop 1 parts) ≤ len image
    ∧ (Forall (λ p, len (part_bytes canon (files w) p) ≤ Z.of_N (size p))
              (drop 1 parts) →
       len image = foldr (λ p n, Z.of_N (size p) + n) 0 (drop 1 parts)).
Proof.
  intros Hall. rewrite (script_pack_run _ _ _ _ _ Hall). cbn [fst files].
  exists (pack_image canon (files w) (drop 1 parts)).
  split; [by rewrite lookup_insert_eq|]. rewrite pack_image_length.
  split; [reflexivity|]. generalize (drop 1 parts). intros l. split.
  - induction l as [|p l IH]; cbn [foldr]; lia.
  - induction 1 as [|p l Hp _ IH]; cbn [foldr]; lia.
Qed.

(** No part file [unpack] writes is longer than the declared size: it holds
    as many bytes as the image has between [offset] and [offset + size], and
    is [size] bytes long exactly when the image reaches [offset + size] (or
    [size] is 0). *)
Theorem unpack_part_size parts prog src rest w img p :
  files w !! canon src = Some img →
  Forall (λ p, canon (name p) ≠ canon src) parts →
  NoDup (map (λ p, canon (name p)) parts) →
  p ∈ parts →
  ∃ data,
    files (script canon parts (prog :: "unpack" :: src :: rest) w).1
      !! canon (name p) = Some data
    ∧ len data = Z.min (Z.of_N (size p)) (Z.max 0 (len img - Z.of_N (offset p)))
    ∧ len data ≤ Z.of_N (size p)
    ∧ (len data = Z.of_N (size p)
       ↔ Z.of_N (offset p) + Z.of_N (size p) ≤ len img ∨ size p = 0%N).
Proof.
  intros Hsrc Hne Hnd Hp. rewrite (script_unpack_run _ _ _ _ _ img Hsrc Hne).
  cbn [fst files]. exists (slice img (offset p) (size p)).
  split; [by apply unpack_files_lookup|]. rewrite slice_length.
  unfold len. split; [reflexivity|]. split; lia.
Qed.

(** ** Running a command again *)

(** What [unpack] leaves in a file a descriptor names does not depend on what
    the files held before. *)
Lemma unpack_files_named img parts : ∀ fs fs' k,
  Exists (λ p, canon (name p) = k) parts →
  unpack_files canon img parts fs !! k = unpack_files canon img parts fs' !! k.
Proof.
  induction parts as [|p parts IH]; intros fs fs' k Hk;
    [by apply Exists_nil in Hk|].
  rewrite !unpack_files_cons.
  destruct (decide (Exists (λ q, canon (name q) = k) parts)) as [Hin|Hout].
  - by apply IH.
  - apply not_Exists_Forall in Hout; [|intros q; apply _].
    rewrite !unpack_files_frame by exact Hout.
    apply Exists_cons in Hk as [<-|Hk].
    + by rewrite !lookup_insert_eq.
    + exfalso. rewrite Forall_forall in Hout. apply Exists_exists in Hk as (q & Hq & Heq).
      by apply (Hout q Hq).
Qed.

Lemma unpack_files_idemp img parts fs :
  unpack_files canon img parts (unpack_files canon img parts fs)
  = unpack_files canon img parts fs.
Proof.
  apply map_eq. intros k.
  destruct (decide (Exists (λ q, canon (name q) = k) parts)) as [Hin|Hout].
  - by apply unpack_files_named.
  - apply not_Exists_Forall in Hout; [|intros q; apply _].
    by rewrite unpack_files_frame.
Qed.

(** Running [unpack] a second time on the same source changes no file: it
    ends normally again and leaves every file as the first run left it. *)
Theorem unpack_twice parts prog src rest w img :
  files w !! canon src = Some img →
  Forall (λ p, canon (name p) ≠ canon src) parts →
  (script canon parts (prog :: "unpack" :: src :: rest)
     (script canon parts (prog :: "unpack" :: src :: rest) w).1).2 = Returned tt
  ∧ files (script canon parts (prog :: "unpack" :: src :: rest)
             (script canon parts (prog :: "unpack" :: src :: rest) w).1).1
    = files (script canon parts (prog :: "unpack" :: src :: rest) w).1.
Proof.
  intros Hsrc Hne. rewrite (script_unpack_run _ _ _ _ _ img Hsrc Hne).
  cbn [fst].
  rewrite (script_unpack_run _ _ _ _ _ img);
    [|cbn [files]; by rewrite unpack_files_frame|exact Hne].
  cbn [fst snd files]. split; [reflexivity|apply unpack_files_idemp].
Qed.

(** Running [pack] a second time on the same part files changes no file: it
    ends normally again and writes the same image. *)
Theorem pack_twice parts prog dst rest w :
  Forall (λ p, canon (name p) ≠ canon dst ∧ is_Some (files w !! canon (name p)))
         (drop 1 parts) →
  (script canon parts (prog :: "pack" :: dst :: rest)
     (script canon parts (prog :: "pack" :: dst :: rest) w).1).2 = Returned tt
  ∧ files (script canon parts (prog :: "pack" :: dst :: rest)
             (script canon parts (prog :: "pack" :: dst :: rest) w).1).1
    = files (script canon parts (prog :: "pack" :: dst :: rest) w).1.
Proof.
  intros Hall. rewrite (script_pack_run _ _ _ _ _ Hall). cbn [fst].
  assert (Hne : Forall (λ p, canon (name p) ≠ canon dst) (drop 1 parts))
    by (eapply Forall_impl; [exact Hall|]; by intros q [? ?]).
  rewrite script_pack_run.
  - cbn [fst snd files]. split; [reflexivity|].
    by rewrite insert_insert_eq, pack_image_insert_ne.
  - cbn [files]. eapply Forall_impl; [exact Hall|]. intros q [? ?].
    split; [done|]. by rewrite lookup_insert_ne.
Qed.

(** ** What the parts hold of the image *)

(** What is left of a file at a position is the next read and what is left
    after it. *)
Lemma slice_cover content pos n :
  drop (N.to_nat pos) content
  = slice content pos n ++ drop (N.to_nat (pos + n)) content.
Proof.
  unfold slice.
  rewrite <- (take_drop (N.to_nat n) (drop (N.to_nat pos) content)) at 1.
  rewrite drop_drop. do 2 f_equal. lia.
Qed.

(** The two part files [unpack] of the program writes, the 0x40 bytes of the
    gap between them and what the image holds from 5505028 on make up the
    image, in that order. *)
Theorem unpack_parts_cover prog src rest w img :
  files w !! canon src = Some img →
  canon "uimage_kernel" ≠ canon src →
  canon "squashfs" ≠ canon src →
  canon "uimage_kernel" ≠ canon "squashfs" →
  ∃ kernel squashfs,
    files (main canon (prog :: "unpack" :: src :: rest) w).1 !! canon "uimage_kernel"
    = Some kernel
    ∧ files (main canon (prog :: "unpack" :: src :: rest) w).1 !! canon "squashfs"
      = Some squashfs
    ∧ img = kernel ++ slice img 0x11AA97 0x40 ++ squashfs
            ++ drop (N.to_nat 5505028) img.
Proof.
  intros Hsrc Hk Hs Hks. rewrite (main_unpack_run _ _ _ _ img Hsrc Hk Hs).
  cbn [fst files].
  exists (slice img (offset kernel_part) (size kernel_part)),
         (slice img (offset squashfs_part) (size squashfs_part)).
  split; [by rewrite lookup_insert_ne, lookup_insert_eq|].
  split; [by rewrite lookup_insert_eq|].
  pose proof (slice_cover img 0 0x11AA97) as H1.
  pose proof (slice_cover img 0x11AA97 0x40) as H2.
  pose proof (slice_cover img 0x11AAD7 (5505028 - 0x11AAD7)) as H3.
  change (0 + 0x11AA97)%N with 0x11AA97%N in H1.
  change (0x11AA97 + 0x40)%N with 0x11AAD7%N in H2.
  change (0x11AAD7 + (5505028 - 0x11AAD7))%N with 5505028%N in H3.
  change (N.to_nat 0) with 0%nat in H1. cbn [drop] in H1.
  rewrite H1 at 1. rewrite H2, H3. reflexivity.
Qed.

(** ** The image and the part file being one file *)

(** [pack] into the [squashfs] part file itself: the file is truncated when
    it is opened as the image, before it is read as the part, so the run ends
    normally with an image of 4347181 zero bytes, and the part is lost. *)
Theorem pack_onto_part prog dst rest w :
  canon dst = canon "squashfs" →
  main canon (prog :: "pack" :: dst :: rest) w
  = (World (<[canon dst := zeros 4347181]> (files w))
           (stdout w ++ ["Wrote squashfs - 0x0 bytes"; "Padding: 0x42552d"]),
     Returned tt).
Proof.
  intros Hsame.
  assert (Hpart :
    pack_part canon squashfs_part (Writer (canon dst))
      (World (<[canon dst := []]> (files w)) (stdout w))
    = (World (<[canon dst := zeros 4347181]> (files w))
             (stdout w ++ ["Wrote squashfs - 0x0 bytes"; "Padding: 0x42552d"]),
       Returned (Writer (canon dst)))).
  { rewrite (pack_part_run _ _ _ []).
    - cbn [files stdout w_file]. rewrite lookup_insert_eq, insert_insert_eq.
      reflexivity.
    - cbn [files name squashfs_part]. by rewrite <- Hsame, lookup_insert_eq. }
  destruct w as [fs out]. cbn [files stdout] in *.
  unfold main. rewrite firmware_parts_eq. unfold script. run.
  cbn [lookup list_lookup String.eqb Ascii.eqb Bool.eqb].
  change (drop 1 [kernel_part; squashfs_part]) with [squashfs_part].
  change (for_in [squashfs_part] (pack_part canon) (Writer (canon dst)))
    with (bind (λ f, ret f) (pack_part canon squashfs_part (Writer (canon dst)))).
  unfold bind. by rewrite Hpart.
Qed.

(** ** What [pack] does not look at *)

Lemma for_in_ext {A S} (body : A → S → M S) (l l' : list A) :
  Forall2 (λ x y, body x = body y) l l' →
  ∀ s w, for_in l body s w = for_in l' body s w.
Proof.
  induction 1 as [|x y l l' Hxy _ IH]; intros s w; [reflexivity|].
  cbn [for_in]. unfold mbind, M_bind, bind. rewrite Hxy.
  destruct (body y s w) as [w' [s'|e]]; [apply IH|reflexivity].
Qed.

(** [pack] uses the names and the sizes of the table and nothing else: it
    lays the parts end to end whatever offsets the table declares, so two
    tables that differ in offsets only give the same run. *)
Theorem pack_ignores_offsets parts parts' prog dst rest w :
  Forall2 (λ p q, name p = name q ∧ size p = size q) parts parts' →
  script canon parts (prog :: "pack" :: dst :: rest) w
  = script canon parts' (prog :: "pack" :: dst :: rest) w.
Proof.
  intros Hsame.
  assert (Hloop : ∀ f w0,
    for_in (drop 1 parts) (pack_part canon) f w0
    = for_in (drop 1 parts') (pack_part canon) f w0).
  { apply for_in_ext. apply Forall2_drop.
    eapply Forall2_impl; [exact Hsame|].
    intros [n o z] [n' o' z'] [Hn Hz]. cbn [name size] in *. by subst. }
  destruct w as [fs out]. unfold script. run.
  cbn [lookup list_lookup String.eqb Ascii.eqb Bool.eqb]. by rewrite Hloop.
Qed.

(** The files [unpack] leaves do not depend on the order of the table, as
    long as its descriptors name distinct files: only the order of the lines
    printed does. *)
Theorem unpack_order_irrelevant parts parts' prog src rest w img :
  files w !! canon src = Some img →
  Forall (λ p, canon (name p) ≠ canon src) parts →
  NoDup (map (λ p, canon (name p)) parts) →
  parts ≡ₚ parts' →
  files (script canon parts (prog :: "unpack" :: src :: rest) w).1
  = files (script canon parts' (prog :: "unpack" :: src :: rest) w).1.
Proof.
  intros Hsrc Hne Hnd Hperm.
  assert (Hne' : Forall (λ p, canon (name p) ≠ canon src) parts')
    by (by rewrite <- Hperm).
  assert (Hnd' : NoDup (map (λ p, canon (name p)) parts'))
    by (by rewrite <- Hperm).
  rewrite (script_unpack_run _ _ _ _ _ img Hsrc Hne).
  rewrite (script_unpack_run _ _ _ _ _ img Hsrc Hne').
  cbn [fst files]. apply map_eq. intros k.
  destruct (decide (Exists (λ q, canon (name q) = k) parts)) as [Hin|Hout].
  - apply Exists_exists in Hin as (p & Hp & <-).
    rewrite !unpack_files_lookup; [done|done|by rewrite <- Hperm|done|done].
  - apply not_Exists_Forall in Hout; [|intros q; apply _].
    rewrite !unpack_files_frame; [done|by rewrite <- Hperm|done].
Qed.

End Proofs.

(** * The example of the specification, and runs of the program *)

(** [unpack] on the example: [A] gets four bytes, [B] six. *)
Lemma unpack_contract_example :
  script id example_parts ["unpacker.py"; "unpack"; "image.bin"] example_disk =
    (World (<["B" := [Byte.x05; Byte.x06; Byte.x07; Byte.x08; Byte.x09; Byte.x00]]>
              (<["A" := [Byte.x01; Byte.x02; Byte.x03; Byte.x04]]>
                 {[ "image.bin" := example_image ]}))
           ["Wrote A - 0x4 bytes"; "Wrote B - 0x6 bytes"],
     Returned tt).
Proof.
  refine (unpack_contract id example_parts "unpacker.py" "image.bin" []
            example_disk example_image _ _).
  - reflexivity.
  - repeat constructor; discriminate.
Defined.

(** [pack] on the example, a three-byte part [B]: three content bytes and
    three zero bytes. *)
Lemma pack_padding_law_example :
  (script id example_parts ["unpacker.py"; "pack"; "out.bin"] example_parts_disk).2
  = Returned tt
  ∧ files (script id example_parts ["unpacker.py"; "pack"; "out.bin"]
             example_parts_disk).1 !! "out.bin"
    = Some [Byte.x05; Byte.x06; Byte.x07; Byte.x00; Byte.x00; Byte.x00]
  ∧ Forall (λ p,
       Z.of_nat (length (part_bytes id (files example_parts_disk) p)) ≤ Z.of_N (size p) →
       padded p (part_bytes id (files example_parts_disk) p)
       = part_bytes id (files example_parts_disk) p
         ++ replicate (N.to_nat (size p)
                       - length (part_bytes id (files example_parts_disk) p))
                      Byte.x00
       ∧ length (padded p (part_bytes id (files example_parts_disk) p))
         = N.to_nat (size p))
      [mkFirmwarePart "B" 4 6].
Proof.
  refine (pack_padding_law id example_parts "unpacker.py" "out.bin" []
            example_parts_disk _).
  repeat constructor; [discriminate | by eexists].
Defined.

(** [pack] on the example: [A] is skipped, and need not be there. *)
Lemma pack_skips_first_example :
  script id example_parts ["unpacker.py"; "pack"; "out.bin"] example_parts_disk =
    (World (<["out.bin" := [Byte.x05; Byte.x06; Byte.x07; Byte.x00; Byte.x00; Byte.x00]]>
              {[ "B" := [Byte.x05; Byte.x06; Byte.x07] ]})
           ["Wrote B - 0x3 bytes"; "Padding: 0x3"],
     Returned tt)
  ∧ (∀ k, k ≠ "out.bin" →
       files (script id example_parts ["unpacker.py"; "pack"; "out.bin"]
                example_parts_disk).1 !! k
       = files example_parts_disk !! k)
  ∧ (∀ first',
       script id (first' :: [mkFirmwarePart "B" 4 6])
         ["unpacker.py"; "pack"; "out.bin"] example_parts_disk
       = script id example_parts ["unpacker.py"; "pack"; "out.bin"]
           example_parts_disk).
Proof.
  refine (pack_skips_first_in_order id (mkFirmwarePart "A" 0 4)
            [mkFirmwarePart "B" 4 6] "unpacker.py" "out.bin" []
            example_parts_disk _).
  repeat constructor; [discriminate | by eexists].
Defined.

(** [unpack] of a three-byte image over the example table: both descriptors
    reach beyond its end, and the run still ends normally. *)
Lemma unpack_short_source_example :
  (script id example_parts ["unpacker.py"; "unpack"; "firmware.bin"] short_disk).2
  = Returned tt
  ∧ ∀ p, p ∈ example_parts →
      len short_image < Z.of_N (offset p) + Z.of_N (size p) →
      files (script id example_parts ["unpacker.py"; "unpack"; "firmware.bin"]
               short_disk).1 !! name p
      = Some (drop (N.to_nat (offset p)) short_image)
      ∧ len (drop (N.to_nat (offset p)) short_image)
        = Z.max 0 (len short_image - Z.of_N (offset p)).
Proof.
  refine (unpack_short_source_not_rejected id example_parts "unpacker.py"
            "firmware.bin" [] short_disk short_image _ _ _).
  - reflexivity.
  - repeat constructor; discriminate.
  - cbn [map example_parts name id]. apply NoDup_cons. split.
    + intros [=]%list_elem_of_singleton.
    + apply NoDup_singleton.
Defined.

(** An unknown subcommand. *)
Lemma usage_unknown_subcommand_example :
  main id ["unpacker.py"; "repack"; "firmware.bin"] short_disk
  = (short_disk, Returned tt)
  ∧ exit_status (main id ["unpacker.py"; "repack"; "firmware.bin"] short_disk).2 = 0.
Proof.
  refine (usage_without_subcommand id ["unpacker.py"; "repack"; "firmware.bin"]
            short_disk _).
  intros a [= <-]. split; discriminate.
Defined.

(** The source image of a run of [unpack] is left as it was. *)
Lemma unpack_frame_example :
  files (script id example_parts ["unpacker.py"; "unpack"; "image.bin"]
           example_disk).1 !! "image.bin"
  = Some example_image.
Proof.
  refine (unpack_frame id example_parts "unpacker.py" "image.bin" []
            example_disk "image.bin" _).
  repeat constructor; discriminate.
Defined.

(** Two runs of [unpack] on the same image, the second in a directory that
    already holds a stale part file. *)
Lemma run_deterministic_example :
  (script id example_parts ["unpacker.py"; "unpack"; "image.bin"] example_disk).2
  = (script id example_parts ["unpacker.py"; "unpack"; "image.bin"] stale_disk).2
  ∧ stdout (script id example_parts ["unpacker.py"; "unpack"; "image.bin"] example_disk).1
    = stdout (script id example_parts ["unpacker.py"; "unpack"; "image.bin"] stale_disk).1
  ∧ ((script id example_parts ["unpacker.py"; "unpack"; "image.bin"] example_disk).2
     = Returned tt →
     ∀ k, k ∈ ["A"; "B"] →
       files (script id example_parts ["unpacker.py"; "unpack"; "image.bin"]
                example_disk).1 !! k
       = files (script id example_parts ["unpacker.py"; "unpack"; "image.bin"]
                  stale_disk).1 !! k).
Proof.
  refine (run_deterministic id example_parts
            ["unpacker.py"; "unpack"; "image.bin"] example_disk stale_disk _ _).
  - reflexivity.
  - intros k Hk. apply list_elem_of_singleton in Hk as ->. reflexivity.
Defined.

(** ** Runs of the program on a whole image *)

(** Two images that differ in the gap, and in nothing else. *)
Lemma table_gap_lost_example :
  map (λ p, (name p, Z.of_N (offset p), Z.of_N (offset p) + Z.of_N (size p)))
      firmware_parts
  = [("uimage_kernel", 0x0, 0x11AA97); ("squashfs", 0x11AAD7, 5505028)]
  ∧ 0x11AA97 + 0x40 = 0x11AAD7
  ∧ (main id ["unpacker.py"; "unpack"; "firmware.bin"] (firmware_disk Byte.x00)).2
    = (main id ["unpacker.py"; "unpack"; "firmware.bin"] (firmware_disk Byte.xff)).2
  ∧ stdout (main id ["unpacker.py"; "unpack"; "firmware.bin"] (firmware_disk Byte.x00)).1
    = stdout (main id ["unpacker.py"; "unpack"; "firmware.bin"] (firmware_disk Byte.xff)).1
  ∧ ∀ p, p ∈ firmware_parts →
      files (main id ["unpacker.py"; "unpack"; "firmware.bin"]
               (firmware_disk Byte.x00)).1 !! name p
      = files (main id ["unpacker.py"; "unpack"; "firmware.bin"]
                 (firmware_disk Byte.xff)).1 !! name p.
Proof.
  refine (table_gap_lost id "unpacker.py" "firmware.bin" []
            (firmware_disk Byte.x00) (firmware_disk Byte.xff)
            (firmware_image Byte.x00) (firmware_image Byte.xff) _ _ _ _ _ _).
  - apply lookup_singleton_eq.
  - apply lookup_singleton_eq.
  - discriminate.
  - discriminate.
  - unfold firmware_disk. cbn [stdout]. reflexivity.
  - intros i Hi. unfold firmware_image. apply agree_outside.
    + by rewrite !length_replicate.
    + rewrite !length_replicate. lia.
Defined.


(** ** Runs of the program that the specification rules out *)




Lemma oversize_part_len : len oversize_part = 4347182.
Proof. unfold len, oversize_part. rewrite length_replicate. lia. Qed.

(** [pack] of a part file one byte too long. *)
Lemma pack_oversize_not_rejected_example :
  main id ["unpacker.py"; "pack"; "firmware.bin"] oversize_disk =
    (World (<["firmware.bin" := oversize_part]> (files oversize_disk))
           (stdout oversize_disk ++
              [ "Wrote squashfs - " +:+ hex (len oversize_part) +:+ " bytes";
                "Padding: " +:+ hex (4347181 - len oversize_part) ]),
     Returned tt)
  ∧ 4347181 - len oversize_part < 0.
Proof.
  refine (pack_oversize_not_rejected id "unpacker.py" "firmware.bin" []
            oversize_disk oversize_part _ _ _).
  - apply lookup_singleton_eq.
  - discriminate.
  - rewrite oversize_part_len, squashfs_size. lia.
Defined.

(** C3 fails on the script: [pack] of a part file longer than its partition
    ends normally, with exit status 0, and the image is the oversize part. *)
Lemma pack_oversize_accepted :
  Z.of_N (size squashfs_part) < len oversize_part
  ∧ (main id ["unpacker.py"; "pack"; "firmware.bin"] oversize_disk).2 = Returned tt
  ∧ exit_status (main id ["unpacker.py"; "pack"; "firmware.bin"] oversize_disk).2 = 0
  ∧ files (main id ["unpacker.py"; "pack"; "firmware.bin"] oversize_disk).1
      !! "firmware.bin"
    = Some oversize_part.
Proof.
  assert (Hlt : Z.of_N (size squashfs_part) < len oversize_part)
    by (rewrite oversize_part_len, squashfs_size; lia).
  split; [exact Hlt|].
  rewrite (main_pack_run id "unpacker.py" "firmware.bin" [] oversize_disk
             oversize_part); [|apply lookup_singleton_eq|discriminate].
  cbn [fst snd exit_status files].
  split; [reflexivity|]. split; [reflexivity|].
  rewrite lookup_insert_eq. by rewrite padded_oversize.
Qed.

(** C4 fails on the script: [unpack] of a three-byte image ends normally,
    with exit status 0; [uimage_kernel] gets the three bytes and [squashfs]
    none, though the table declares 0x11AA97 and 4347181 bytes. *)
Lemma unpack_short_source_accepted :
  len short_image < Z.of_N (offset kernel_part) + Z.of_N (size kernel_part)
  ∧ len short_image < Z.of_N (offset squashfs_part) + Z.of_N (size squashfs_part)
  ∧ (main id ["unpacker.py"; "unpack"; "firmware.bin"] short_disk).2 = Returned tt
  ∧ exit_status (main id ["unpacker.py"; "unpack"; "firmware.bin"] short_disk).2 = 0
  ∧ files (main id ["unpacker.py"; "unpack"; "firmware.bin"] short_disk).1
      !! "uimage_kernel" = Some short_image
  ∧ files (main id ["unpacker.py"; "unpack"; "firmware.bin"] short_disk).1
      !! "squashfs" = Some [].
Proof.
  split; [done|]. split; [done|].
  unfold main. rewrite firmware_parts_eq.
  rewrite (script_unpack_run id _ "unpacker.py" "firmware.bin" [] short_disk
             short_image); [|reflexivity|repeat constructor; discriminate].
  cbn [fst snd exit_status files].
  split; [reflexivity|]. split; [reflexivity|]. split.
  - rewrite !unpack_files_cons. cbn [unpack_files foldl].
    rewrite lookup_insert_ne by discriminate. cbn [name kernel_part id].
    rewrite lookup_insert_eq, slice_short.
    + reflexivity.
    + cbn [length short_image offset size kernel_part]. lia.
  - rewrite !unpack_files_cons. cbn [unpack_files foldl name squashfs_part id].
    rewrite lookup_insert_eq, slice_beyond; [reflexivity|].
    cbn [length short_image offset squashfs_part]. lia.
Qed.

(** C7 fails on the script: with an unknown subcommand nothing is printed
    and the exit status is 0. *)
Lemma unknown_subcommand_exits_zero :
  exit_status (main id ["unpacker.py"; "extract"; "firmware.bin"] (World ∅ [])).2 = 0
  ∧ main id ["unpacker.py"; "extract"; "firmware.bin"] (World ∅ [])
    = (World ∅ [], Returned tt).
Proof. split; reflexivity. Qed.

(** C8 fails on the script: when the source image is the file the first
    descriptor names, [unpack] truncates it before reading it, and the image
    is lost. *)
Lemma unpack_overwrites_source :
  files aliased_disk !! "uimage_kernel" = Some short_image
  ∧ (main id ["unpacker.py"; "unpack"; "uimage_kernel"] aliased_disk).2 = Returned tt
  ∧ files (main id ["unpacker.py"; "unpack"; "uimage_kernel"] aliased_disk).1
      !! "uimage_kernel"
    = Some [].
Proof.
  split; [reflexivity|].
  apply (script_unpack_first_file id kernel_part [squashfs_part]
           "unpacker.py" "uimage_kernel" [] aliased_disk).
  - reflexivity.
  - by exists short_image.
Qed.

(** ** Further runs *)

(** [pack] without a path. *)
Lemma missing_path_argument_example :
  main id ["unpacker.py"; "pack"] small_part_disk = (small_part_disk, Raised IndexError)
  ∧ exit_status (main id ["unpacker.py"; "pack"] small_part_disk).2 = 1.
Proof.
  refine (missing_path_argument id firmware_parts "unpacker.py" "pack"
            small_part_disk _).
  by right.
Defined.

(** [unpack] of an image that is not there. *)
Lemma unpack_absent_source_example :
  main id ["unpacker.py"; "unpack"; "firmware.bin"] small_part_disk
  = (small_part_disk, Raised FileNotFoundError)
  ∧ exit_status (main id ["unpacker.py"; "unpack"; "firmware.bin"] small_part_disk).2
    = 1.
Proof.
  refine (unpack_absent_source id firmware_parts "unpacker.py" "firmware.bin" []
            small_part_disk _).
  reflexivity.
Defined.

(** [pack] of the program without its part file, over an image of an
    earlier run: the image is left empty. *)
Lemma pack_missing_part_example :
  main id ["unpacker.py"; "pack"; "firmware.bin"] old_image_disk
  = (World (<["firmware.bin" := []]> {[ "firmware.bin" := short_image ]}) [],
     Raised FileNotFoundError).
Proof.
  refine (pack_missing_part id kernel_part [] squashfs_part []
            "unpacker.py" "firmware.bin" [] old_image_disk _ _ _).
  - constructor.
  - discriminate.
  - reflexivity.
Defined.

(** [pack] on the example leaves the part file as it was. *)
Lemma pack_frame_example :
  files (script id example_parts ["unpacker.py"; "pack"; "out.bin"]
           example_parts_disk).1 !! "B"
  = Some [Byte.x05; Byte.x06; Byte.x07].
Proof.
  refine (pack_frame id example_parts "unpacker.py" "out.bin" []
            example_parts_disk "B" _).
  discriminate.
Defined.

(** [pack] on the example: an image of six bytes. *)
Lemma pack_image_size_example :
  ∃ image,
    files (script id example_parts ["unpacker.py"; "pack"; "out.bin"]
             example_parts_disk).1 !! "out.bin"
    = Some image
    ∧ len image = 6
    ∧ 6 ≤ len image
    ∧ (Forall (λ p, len (part_bytes id (files example_parts_disk) p) ≤ Z.of_N (size p))
              [mkFirmwarePart "B" 4 6] →
       len image = 6).
Proof.
  refine (pack_image_size id example_parts "unpacker.py" "out.bin" []
            example_parts_disk _).
  repeat constructor; [discriminate | by eexists].
Defined.

(** [unpack] of the three-byte image over the example table: [B] starts
    beyond its end and comes out empty. *)
Lemma unpack_part_size_example :
  ∃ data,
    files (script id example_parts ["unpacker.py"; "unpack"; "firmware.bin"]
             short_disk).1 !! "B" = Some data
    ∧ len data = 0
    ∧ len data ≤ 6
    ∧ (len data = 6 ↔ 4 + 6 ≤ len short_image ∨ 6%N = 0%N).
Proof.
  refine (unpack_part_size id example_parts "unpacker.py" "firmware.bin" []
            short_disk short_image (mkFirmwarePart "B" 4 6) _ _ _ _).
  - reflexivity.
  - repeat constructor; discriminate.
  - cbn [map example_parts name id]. apply NoDup_cons. split.
    + intros [=]%list_elem_of_singleton.
    + apply NoDup_singleton.
  - apply elem_of_cons. right. apply list_elem_of_singleton. reflexivity.
Defined.

(** [unpack] on the example, twice. *)
Lemma unpack_twice_example :
  (script id example_parts ["unpacker.py"; "unpack"; "image.bin"]
     (script id example_parts ["unpacker.py"; "unpack"; "image.bin"] example_disk).1).2
  = Returned tt
  ∧ files (script id example_parts ["unpacker.py"; "unpack"; "image.bin"]
             (script id example_parts ["unpacker.py"; "unpack"; "image.bin"]
                example_disk).1).1
    = files (script id example_parts ["unpacker.py"; "unpack"; "image.bin"]
               example_disk).1.
Proof.
  refine (unpack_twice id example_parts "unpacker.py" "image.bin" []
            example_disk example_image _ _).
  - reflexivity.
  - repeat constructor; discriminate.
Defined.

(** [pack] on the example, twice. *)
Lemma pack_twice_example :
  (script id example_parts ["unpacker.py"; "pack"; "out.bin"]
     (script id example_parts ["unpacker.py"; "pack"; "out.bin"]
        example_parts_disk).1).2
  = Returned tt
  ∧ files (script id example_parts ["unpacker.py"; "pack"; "out.bin"]
             (script id example_parts ["unpacker.py"; "pack"; "out.bin"]
                example_parts_disk).1).1
    = files (script id example_parts ["unpacker.py"; "pack"; "out.bin"]
               example_parts_disk).1.
Proof.
  refine (pack_twice id example_parts "unpacker.py" "out.bin" []
            example_parts_disk _).
  repeat constructor; [discriminate | by eexists].
Defined.

(** [unpack] of a whole image: the parts, the gap and an empty rest. *)
Lemma unpack_parts_cover_example :
  ∃ kernel squashfs,
    files (main id ["unpacker.py"; "unpack"; "firmware.bin"]
             (firmware_disk Byte.xff)).1 !! "uimage_kernel"
    = Some kernel
    ∧ files (main id ["unpacker.py"; "unpack"; "firmware.bin"]
               (firmware_disk Byte.xff)).1 !! "squashfs"
      = Some squashfs
    ∧ firmware_image Byte.xff
      = kernel ++ slice (firmware_image Byte.xff) 0x11AA97 0x40 ++ squashfs
        ++ drop (N.to_nat 5505028) (firmware_image Byte.xff).
Proof.
  refine (unpack_parts_cover id "unpacker.py" "firmware.bin" []
            (firmware_disk Byte.xff) (firmware_image Byte.xff) _ _ _ _).
  - apply lookup_singleton_eq.
  - discriminate.
  - discriminate.
  - discriminate.
Defined.

(** [pack] into the part file. *)
Lemma pack_onto_part_example :
  main id ["unpacker.py"; "pack"; "squashfs"] small_part_disk
  = (World (<["squashfs" := zeros 4347181]> (files small_part_disk))
           (stdout small_part_disk
            ++ ["Wrote squashfs - 0x0 bytes"; "Padding: 0x42552d"]),
     Returned tt).
Proof.
  refine (pack_onto_part id "unpacker.py" "squashfs" [] small_part_disk _).
  reflexivity.
Defined.

(** [pack] over the table of the program and over the table without the
    gap. *)
Lemma pack_ignores_offsets_example :
  script id firmware_parts ["unpacker.py"; "pack"; "firmware.bin"] small_part_disk
  = script id contiguous_parts ["unpacker.py"; "pack"; "firmware.bin"] small_part_disk.
Proof.
  refine (pack_ignores_offsets id firmware_parts contiguous_parts
            "unpacker.py" "firmware.bin" [] small_part_disk _).
  repeat constructor.
Defined.

(** [unpack] over the example table and over the swapped one. *)
Lemma unpack_order_irrelevant_example :
  files (script id example_parts ["unpacker.py"; "unpack"; "image.bin"]
           example_disk).1
  = files (script id swapped_parts ["unpacker.py"; "unpack"; "image.bin"]
             example_disk).1.
Proof.
  refine (unpack_order_irrelevant id example_parts swapped_parts
            "unpacker.py" "image.bin" [] example_disk example_image _ _ _ _).
  - reflexivity.
  - repeat constructor; discriminate.
  - cbn [map example_parts name id]. apply NoDup_cons. split.
    + intros [=]%list_elem_of_singleton.
    + apply NoDup_singleton.
  - apply perm_swap.
Defined.
